(** * 3DModel: the geometric core of the wireframe viewer

    A shallow embedding of the non-UI part of [3DModel.py]: wireframes and
    their homogeneous point matrices, the elementary 4x4 transforms, their
    composition from the global parameters, and the perspective divide that
    turns transformed columns into 2D line segments.

    Numbers.  The program computes with NumPy [float64] arrays.  Here every
    finite number is a real ([R]) and the arithmetic is exact; rounding is
    not modelled.  The only non-finite values the program can produce come
    from the division in [matrix_to_projection]; they are kept apart in
    [npfloat].

    Arrays.  A two-dimensional [ndarray] is the list of its rows. *)

From Stdlib Require Import Reals Lra Lia List Arith ZArith Bool.
From Stdlib Require Strings.String.
From Equations Require Import Equations.
Import ListNotations.
Import String.StringSyntax.
Local Delimit Scope string_scope with string.

Local Open Scope R_scope.

(** ** Exceptions *)

Inductive exn : Type :=
| AssertionError
| ValueError
| ZeroDivisionError.

Inductive result (A : Type) : Type :=
| Ok (a : A)
| Raise (e : exn).

Arguments Ok {A} a.
Arguments Raise {A} e.

Definition bind {A B : Type} (r : result A) (k : A -> result B) : result B :=
  match r with
  | Ok a => k a
  | Raise e => Raise e
  end.

Notation "x <- r ;; k" := (bind r (fun x => k))
  (at level 61, r at next level, right associativity).

(** ** Arrays *)

Definition vector := list R.
Definition ndarray := list vector.

(** [m.shape[0]] and [m.shape[1]] (the latter is also [len(m[0])]). *)
Definition shape0 (m : ndarray) : nat := length m.
Definition shape1 (m : ndarray) : nat :=
  match m with
  | [] => 0%nat
  | r :: _ => length r
  end.

(** The shape invariant of a two-dimensional array: [n] rows of [k] entries. *)
Definition has_shape (n k : nat) (m : ndarray) : Prop :=
  length m = n /\ Forall (fun r => length r = k) m.

(** [m[i]] and [m[i][j]]. *)
Definition row (i : nat) (m : ndarray) : vector := nth i m [].
Definition entry (i j : nat) (m : ndarray) : R := nth j (row i m) 0.

(** Column [j] of [m]. *)
Definition col (j : nat) (m : ndarray) : vector :=
  map (fun r => nth j r 0) m.

(** [m.T] *)
Definition transpose (m : ndarray) : ndarray :=
  map (fun j => col j m) (seq 0 (shape1 m)).

(** [x[i] = r] on an array [x]: the row at index [i] is replaced. *)
Fixpoint set_row (i : nat) (r : vector) (x : ndarray) : ndarray :=
  match x, i with
  | [], _ => []
  | _ :: rest, O => r :: rest
  | r0 :: rest, S i' => r0 :: set_row i' r rest
  end.

(** [np.eye(n)] *)
Definition eye (n : nat) : ndarray :=
  map (fun i => map (fun j => if Nat.eqb i j then 1 else 0) (seq 0 n))
      (seq 0 n).

(** The inner product of two vectors, summed from the first index on. *)
Fixpoint vdot (u v : vector) : R :=
  match u, v with
  | a :: u', b :: v' => a * b + vdot u' v'
  | _, _ => 0
  end.

(** The matrix product [a @ b] of arrays of matching shapes:
    entry [(i, j)] is the inner product of row [i] of [a] and column [j]
    of [b]. *)
Definition mmul (a b : ndarray) : ndarray :=
  map (fun r => map (fun j => vdot r (col j b)) (seq 0 (shape1 b))) a.

Infix "@@" := mmul (at level 40, left associativity).

(** [a @ b] with NumPy's shape check: the inner dimensions must agree. *)
Definition matmul (a b : ndarray) : result ndarray :=
  if Nat.eqb (shape1 a) (shape0 b) then Ok (a @@ b) else Raise ValueError.

(** [np.linalg.multi_dot]: the product of a chain of arrays.  NumPy is free
    to choose how the chain is associated; here it is associated to the
    right, and [mmul_assoc] shows that the association does not change the
    product.  Fewer than two arrays are refused. *)
Fixpoint chain_product (a : ndarray) (rest : list ndarray) : ndarray :=
  match rest with
  | [] => a
  | b :: rest' => a @@ chain_product b rest'
  end.

Definition multi_dot (arrays : list ndarray) : result ndarray :=
  match arrays with
  | a :: b :: rest => Ok (chain_product a (b :: rest))
  | _ => Raise ValueError
  end.

(** ** Wire frames *)

(** A point is a 3-element tuple, a line segment a list of (two) points,
    a wireframe a list of line segments. *)
Definition point : Type := R * R * R.
Definition line_segment : Type := list point.
Definition wireframe : Type := list line_segment.

Definition cube : wireframe :=
  [[(-1, -1, -1); (1, -1, -1)];
   [(1, -1, -1); (1, 1, -1)];
   [(1, 1, -1); (-1, 1, -1)];
   [(-1, 1, -1); (-1, -1, -1)];
   [(-1, -1, -1); (-1, -1, 1)];
   [(1, -1, -1); (1, -1, 1)];
   [(1, 1, -1); (1, 1, 1)];
   [(-1, 1, -1); (-1, 1, 1)];
   [(-1, -1, 1); (1, -1, 1)];
   [(1, -1, 1); (1, 1, 1)];
   [(1, 1, 1); (-1, 1, 1)];
   [(-1, 1, 1); (-1, -1, 1)]].


Definition guide_axes : wireframe :=
  [[(-0.75, 0, 0); (0.75, 0, 0)];
   [(0, -0.75, 0); (0, 0.75, 0)];
   [(0, 0, -0.75); (0, 0, 0.75)]].

(** [np.array(p)] for a point [p]. *)
Definition point_array (p : point) : vector :=
  let '(x, y, z) := p in [x; y; z].

(** [np.apply_along_axis(f, 0, m)]: [f] is applied to every column of [m]
    and the results are the columns of the answer. *)
Definition apply_along_axis0 (f : vector -> vector) (m : ndarray) : ndarray :=
  transpose (map f (transpose m)).

Definition shape_to_hom_matrix (shape : wireframe) : ndarray :=
  let shape := shape ++ guide_axes in
  let m := transpose (map point_array (concat shape)) in
  apply_along_axis0 (fun p => p ++ [1]) m.

(** ** Transformations *)

(** The dictionary of global parameters, with its seven fixed keys. *)
Record params : Type := mkParams {
  d : R;
  tx : R; ty : R; tz : R;
  rx : R; ry : R; rz : R
}.

Definition global_params : params :=
  {| d := 10; tx := 0; ty := 0; tz := 0; rx := 0; ry := 0; rz := 0 |}.

(** [(-1)/d] on Python numbers raises [ZeroDivisionError] when [d] is 0. *)
Definition perspective (d : R) : result ndarray :=
  if Req_dec_T d 0 then Raise ZeroDivisionError
  else
    let x := eye 4 in
    let x := set_row 2 [0; 0; 0; 0] x in
    let x := set_row 3 [0; 0; (-1) / d; 1] x in
    Ok x.

Definition hom_rotate_x (theta : R) : ndarray :=
  let x := eye 4 in
  let x := set_row 1 [0; cos theta; - sin theta; 0] x in
  let x := set_row 2 [0; sin theta; cos theta; 0] x in
  x.

Definition hom_rotate_y (theta : R) : ndarray :=
  let x := eye 4 in
  let x := set_row 0 [cos theta; 0; sin theta; 0] x in
  let x := set_row 2 [- sin theta; 0; cos theta; 0] x in
  x.

Definition hom_rotate_z (theta : R) : ndarray :=
  let x := eye 4 in
  let x := set_row 0 [cos theta; - sin theta; 0; 0] x in
  let x := set_row 1 [sin theta; cos theta; 0; 0] x in
  x.

Definition translate (x y z : R) : ndarray :=
  let a := eye 4 in
  let a := set_row 0 [1; 0; 0; x] a in
  let a := set_row 1 [0; 1; 0; y] a in
  let a := set_row 2 [0; 0; 1; z] a in
  a.

(** The global dictionary is passed explicitly as [p]. *)
Definition full_transform_matrix (p : params) : result ndarray :=
  P <- perspective (d p) ;;
  multi_dot [P;
             translate (tx p) (ty p) (tz p);
             hom_rotate_x (rx p);
             hom_rotate_y (ry p);
             hom_rotate_z (rz p)].

(** ** Projection *)

(** What NumPy's true division leaves in an array: a finite number, or one
    of [inf], [-inf], [nan] when the divisor is 0 (a warning is printed and
    no exception is raised). *)
Inductive npfloat : Type :=
| Finite (r : R)
| NonFinite.

Definition np_divide (x y : R) : npfloat :=
  if Req_dec_T y 0 then NonFinite else Finite (x / y).

(** [np.array([first, second])] and [np.array([arr[j], arr[j+1]])]. *)
Definition point2d : Type := npfloat * npfloat.
Definition segment2d : Type := point2d * point2d.

(** The [for] loop of [matrix_to_projection]: one 2D point per column. *)
Definition divide_columns (m : ndarray) : list point2d :=
  map (fun i =>
         let first := np_divide (entry 0 i m) (entry 3 i m) in
         let second := np_divide (entry 1 i m) (entry 3 i m) in
         (first, second))
      (seq 0 (length (row 0 m))).

(** [arr[j]]; the loop below only reads indices inside [arr]. *)
Definition item (arr : list point2d) (j : nat) : point2d :=
  nth j arr (NonFinite, NonFinite).

(** The [while j < len(arr)-1] loop, entered with the current [j] and
    [arr2].  The comparison is on integers, since [len(arr)-1] is -1 for an
    empty [arr].  ([print(j)] only writes to the standard output.) *)
Equations? pairing_loop (arr : list point2d) (j : nat) (arr2 : list segment2d)
  : list segment2d by wf (length arr - j)%nat lt :=
  pairing_loop arr j arr2
    with Z_lt_dec (Z.of_nat j) (Z.of_nat (length arr) - 1) => {
    | left _ := pairing_loop arr (j + 2) (arr2 ++ [(item arr j, item arr (j + 1))]);
    | right _ := arr2 }.
Proof. lia. Qed.

Definition matrix_to_projection (m : ndarray) : result (list segment2d) :=
  if negb (Nat.eqb (shape0 m) 4) then Raise AssertionError
  else if negb (Nat.eqb (shape1 m mod 2) 0) then Raise AssertionError
  else
    let arr := divide_columns m in
    Ok (pairing_loop arr 0 []).

Definition full_transform (p : params) (shape_matrix : ndarray)
  : result (list segment2d) :=
  M <- full_transform_matrix p ;;
  T <- matmul M shape_matrix ;;
  matrix_to_projection T.

(** The perspective divide of column [i] as the specification words it:
    the 2D point [(m[0][i] / m[3][i], m[1][i] / m[3][i])]. *)
Definition perspective_divide (m : ndarray) (i : nat) : point2d :=
  (Finite (entry 0 i m / entry 3 i m), Finite (entry 1 i m / entry 3 i m)).

(** The point matrix of a segment whose two endpoints are the origin: both
    columns are the homogeneous point (0, 0, 0, 1). *)
Definition origin_matrix : ndarray := [[0; 0]; [0; 0]; [0; 0]; [1; 1]].

(** ** Display *)

(** [full_transform(base_matrix)] is drawn with the colours
    [(base_matrix.shape[1] // 2 - 3) * ['C0'] + ['r', 'g', 'b']]; a list
    repeated a negative number of times is empty. *)
Definition segment_colors (base_matrix : ndarray) : list String.string :=
  repeat "C0"%string (Z.to_nat (Z.of_nat (shape1 base_matrix) / 2 - 3))
  ++ ["r"%string; "g"%string; "b"%string].

(** ** Sliders *)

(** [global_params[pname] = val].  A key other than the seven the
    transformations read would be added to the dictionary and read by
    nobody; the record is left as it is. *)
Definition setitem (pname : String.string) (val : R) (p : params) : params :=
  if String.eqb pname "d" then
    {| d := val; tx := tx p; ty := ty p; tz := tz p;
       rx := rx p; ry := ry p; rz := rz p |}
  else if String.eqb pname "tx" then
    {| d := d p; tx := val; ty := ty p; tz := tz p;
       rx := rx p; ry := ry p; rz := rz p |}
  else if String.eqb pname "ty" then
    {| d := d p; tx := tx p; ty := val; tz := tz p;
       rx := rx p; ry := ry p; rz := rz p |}
  else if String.eqb pname "tz" then
    {| d := d p; tx := tx p; ty := ty p; tz := val;
       rx := rx p; ry := ry p; rz := rz p |}
  else if String.eqb pname "rx" then
    {| d := d p; tx := tx p; ty := ty p; tz := tz p;
       rx := val; ry := ry p; rz := rz p |}
  else if String.eqb pname "ry" then
    {| d := d p; tx := tx p; ty := ty p; tz := tz p;
       rx := rx p; ry := val; rz := rz p |}
  else if String.eqb pname "rz" then
    {| d := d p; tx := tx p; ty := ty p; tz := tz p;
       rx := rx p; ry := ry p; rz := val |}
  else p.

(** The parameter names of [updates], each connected to its slider. *)
Definition updates : list String.string :=
  ["rx"; "ry"; "rz"; "tx"; "ty"; "tz"]%string.

(** The callbacks of a run of slider events, each a parameter name of
    [updates] and the slider's new value, on the parameter state. *)
Definition run_updates (events : list (String.string * R)) (p : params)
  : params :=
  fold_left (fun p e => setitem (fst e) (snd e) p) events p.

(** ** Notions used in the statements *)




(** The closed form of the viewer: the point is rotated about the z, y
    and x axes in turn, translated, and divided by one minus its depth over
    the distance. *)
Definition rotated (p : params) (q : point) : point :=
  let '(x, y, z) := q in
  (cos (ry p) * cos (rz p) * x - cos (ry p) * sin (rz p) * y + sin (ry p) * z,
   (cos (rx p) * sin (rz p) + sin (rx p) * sin (ry p) * cos (rz p)) * x
   + (cos (rx p) * cos (rz p) - sin (rx p) * sin (ry p) * sin (rz p)) * y
   - sin (rx p) * cos (ry p) * z,
   (sin (rx p) * sin (rz p) - cos (rx p) * sin (ry p) * cos (rz p)) * x
   + (sin (rx p) * cos (rz p) + cos (rx p) * sin (ry p) * sin (rz p)) * y
   + cos (rx p) * cos (ry p) * z).

Definition camera_point (p : params) (q : point) : point2d :=
  let '(x, y, z) := rotated p q in
  let w := 1 - (z + tz p) / d p in
  (np_divide (x + tx p) w, np_divide (y + ty p) w).

(** The 2D point the [for] loop computes from column [i]. *)
Definition divided_column (m : ndarray) (i : nat) : point2d :=
  (np_divide (entry 0 i m) (entry 3 i m),
   np_divide (entry 1 i m) (entry 3 i m)).

(** * Properties *)

(** ** Lists and arrays *)

Lemma map_nth_seq {A : Type} (l : list A) (dflt : A) :
  map (fun i => nth i l dflt) (seq 0 (length l)) = l.
Proof.
  induction l as [|x l IH]; simpl; [reflexivity|].
  f_equal. rewrite <- seq_shift, map_map. exact IH.
Qed.

Lemma map_const_repeat {A B : Type} (b : B) (l : list A) :
  map (fun _ => b) l = repeat b (length l).
Proof. induction l; simpl; congruence. Qed.

Lemma vdot_nil_r (u : vector) : vdot u [] = 0.
Proof. destruct u; reflexivity. Qed.

Lemma vdot_zeros_l (n : nat) (v : vector) : vdot (repeat 0 n) v = 0.
Proof.
  revert v; induction n as [|n IH]; intros [|b v]; simpl; try reflexivity.
  rewrite IH. ring.
Qed.

Lemma vdot_map_zero {A : Type} (s : list A) (v : vector) :
  vdot (map (fun _ => 0) s) v = 0.
Proof. rewrite map_const_repeat. apply vdot_zeros_l. Qed.

(** The inner product is linear in its first argument. *)
Lemma vdot_linear_l {A : Type} (a : R) (f g : A -> R) (s : list A) (v : vector) :
  vdot (map (fun l => a * f l + g l) s) v
  = a * vdot (map f s) v + vdot (map g s) v.
Proof.
  revert v; induction s as [|x s IH]; intros [|b v]; simpl; try ring.
  rewrite IH. ring.
Qed.

Lemma col_nil (j : nat) : col j [] = [].
Proof. reflexivity. Qed.

Lemma col_cons (j : nat) (r : vector) (m : ndarray) :
  col j (r :: m) = nth j r 0 :: col j m.
Proof. reflexivity. Qed.

Lemma length_col (j : nat) (m : ndarray) : length (col j m) = length m.
Proof. apply length_map. Qed.

Lemma has_shape_shape1 (n k : nat) (m : ndarray) :
  has_shape (S n) k m -> shape1 m = k.
Proof.
  intros [Hn Hk]. destruct m as [|r m]; [discriminate|].
  inversion Hk; subst. reflexivity.
Qed.

(** Row [i] and column [j] of a product. *)
Lemma row_mmul (i : nat) (a b : ndarray) :
  (i < length a)%nat ->
  row i (a @@ b) = map (fun j => vdot (row i a) (col j b)) (seq 0 (shape1 b)).
Proof.
  intros Hi. unfold row, mmul.
  rewrite (nth_indep _ [] (map (fun j => vdot [] (col j b)) (seq 0 (shape1 b))))
    by (rewrite length_map; exact Hi).
  exact (map_nth (fun r => map (fun j => vdot r (col j b)) (seq 0 (shape1 b)))
           a [] i).
Qed.

Lemma col_mmul (j : nat) (a b : ndarray) :
  (j < shape1 b)%nat ->
  col j (a @@ b) = map (fun r => vdot r (col j b)) a.
Proof.
  intros Hj. unfold col at 1, mmul. rewrite map_map.
  apply map_ext. intros r.
  rewrite (nth_indep _ 0 (vdot r (col 0 b))) by (rewrite length_map, length_seq; exact Hj).
  rewrite (map_nth (fun j => vdot r (col j b))), seq_nth by exact Hj.
  reflexivity.
Qed.

Lemma shape1_mmul (a b : ndarray) :
  a <> [] -> shape1 (a @@ b) = shape1 b.
Proof.
  destruct a as [|r a]; [congruence|]. intros _. simpl.
  now rewrite length_map, length_seq.
Qed.

Lemma length_mmul (a b : ndarray) : length (a @@ b) = length a.
Proof. apply length_map. Qed.

(** Exchange of the two sums in a triple product. *)
Lemma vdot_exchange (b : ndarray) (m : nat) :
  Forall (fun r => length r = m) b ->
  forall (r v : vector),
    vdot (map (fun l => vdot r (col l b)) (seq 0 m)) v
    = vdot r (map (fun rb => vdot rb v) b).
Proof.
  induction 1 as [|rb b Hrb Hb IH]; intros r v.
  - rewrite (map_ext _ (fun _ => 0)) by (intros l; now rewrite col_nil, vdot_nil_r).
    simpl. now rewrite vdot_nil_r, vdot_map_zero.
  - destruct r as [|a r].
    + simpl. apply vdot_map_zero.
    + simpl. rewrite <- IH.
      rewrite (vdot_linear_l a (fun l => nth l rb 0)
                 (fun l => vdot r (col l b))).
      rewrite <- Hrb, map_nth_seq. reflexivity.
Qed.

(** The matrix product is associative (the middle array is a non-empty
    array with rows of one length). *)
Lemma mmul_assoc (a b c : ndarray) :
  b <> [] -> Forall (fun r => length r = shape1 b) b ->
  (a @@ b) @@ c = a @@ (b @@ c).
Proof.
  intros Hne Hb. unfold mmul at 1 2 3. rewrite map_map.
  apply map_ext. intros r.
  rewrite shape1_mmul by exact Hne.
  apply map_ext_in. intros j Hj. apply in_seq in Hj.
  rewrite col_mmul by lia.
  apply vdot_exchange. exact Hb.
Qed.

(** ** The elementary transforms *)

Ltac unfold_arrays :=
  cbv [hom_rotate_x hom_rotate_y hom_rotate_z translate eye set_row
       mmul chain_product map seq vdot col shape0 shape1 length nth Nat.eqb
       row entry].

(** Two arrays with the same skeleton are equal when [tac] proves their
    entries equal. *)
Ltac array_eq tac :=
  repeat match goal with
         | |- _ :: _ = _ :: _ => apply f_equal2
         | |- [] = [] => reflexivity
         | |- @eq R _ _ => tac
         end.

Lemma cos2_sin2_prod (t : R) : cos t * cos t + sin t * sin t = 1.
Proof. pose proof (sin2_cos2 t) as H. unfold Rsqr in H. lra. Qed.

Lemma perspective_nonzero (d : R) :
  d <> 0 ->
  perspective d
  = Ok [[1; 0; 0; 0]; [0; 1; 0; 0]; [0; 0; 0; 0]; [0; 0; (-1) / d; 1]].
Proof.
  intros Hd. unfold perspective.
  destruct (Req_dec_T d 0) as [E|_]; [contradiction|reflexivity].
Qed.

Lemma perspective_zero : perspective 0 = Raise ZeroDivisionError.
Proof.
  unfold perspective. destruct (Req_dec_T 0 0) as [_|N]; [reflexivity|].
  now contradiction N.
Qed.

Lemma translate_shape (x y z : R) : has_shape 4 4 (translate x y z).
Proof. split; [reflexivity|]. unfold_arrays. repeat constructor. Qed.

Lemma hom_rotate_x_shape (t : R) : has_shape 4 4 (hom_rotate_x t).
Proof. split; [reflexivity|]. unfold_arrays. repeat constructor. Qed.

Lemma hom_rotate_y_shape (t : R) : has_shape 4 4 (hom_rotate_y t).
Proof. split; [reflexivity|]. unfold_arrays. repeat constructor. Qed.

Lemma hom_rotate_z_shape (t : R) : has_shape 4 4 (hom_rotate_z t).
Proof. split; [reflexivity|]. unfold_arrays. repeat constructor. Qed.

(** The side conditions of [mmul_assoc], from a shape. *)
Lemma has_shape_assoc_side (n k : nat) (b : ndarray) :
  has_shape (S n) k b ->
  b <> [] /\ Forall (fun r => length r = shape1 b) b.
Proof.
  intros H. rewrite (has_shape_shape1 _ _ _ H). destruct H as [Hn Hk].
  split; [|exact Hk]. intros ->. discriminate.
Qed.

Lemma vdot_zero4 (v : vector) : vdot [0; 0; 0; 0] v = 0.
Proof. exact (vdot_zeros_l 4 v). Qed.

(** A zero row of the left factor is a zero row of the product. *)
Lemma zero_row_mmul (i : nat) (a b : ndarray) :
  (i < length a)%nat -> row i a = [0; 0; 0; 0] ->
  row i (a @@ b) = repeat 0 (shape1 b).
Proof.
  intros Hi Hz. rewrite row_mmul by exact Hi. rewrite Hz.
  rewrite (map_ext _ (fun _ => 0)) by (intros j; apply vdot_zero4).
  now rewrite map_const_repeat, length_seq.
Qed.

(** C8.  For all real [a b c] and [x y z], the product of [translate a b c]
    and [translate x y z] is [translate (a + x) (b + y) (c + z)]. *)
Theorem translate_compose (a b c x y z : R) :
  translate a b c @@ translate x y z = translate (a + x) (b + y) (c + z).
Proof. unfold_arrays. array_eq ltac:(ring). Qed.

(** C7.  A rotation about any of the three axes followed by the rotation
    by the opposite angle is the 4x4 identity, and so is a translation
    followed by the opposite translation. *)
Theorem rotate_translate_inverse (theta x y z : R) :
  hom_rotate_x theta @@ hom_rotate_x (- theta) = eye 4 /\
  hom_rotate_y theta @@ hom_rotate_y (- theta) = eye 4 /\
  hom_rotate_z theta @@ hom_rotate_z (- theta) = eye 4 /\
  translate x y z @@ translate (- x) (- y) (- z) = eye 4.
Proof.
  pose proof (cos2_sin2_prod theta) as H.
  repeat split; unfold_arrays; rewrite ?cos_neg, ?sin_neg;
    array_eq ltac:(first [ring | lra]).
Qed.

(** C3.  For nonzero [d], [perspective d] is a 4x4 array whose row 2 is
    all zeros and whose row 3 is [0, 0, -1/d, 1]; the product with the
    column of a homogeneous point (x, y, z, 1) has [1 - z/d] as its
    fourth coordinate. *)
Theorem perspective_rows (d : R) :
  d <> 0 ->
  exists P,
    perspective d = Ok P /\
    has_shape 4 4 P /\
    row 2 P = [0; 0; 0; 0] /\
    row 3 P = [0; 0; (-1) / d; 1] /\
    forall x y z : R,
    exists T, matmul P [[x]; [y]; [z]; [1]] = Ok T /\
              entry 3 0 T = 1 - z / d.
Proof.
  intros Hd. eexists. split; [apply perspective_nonzero; exact Hd|].
  split; [split; [reflexivity|repeat constructor]|].
  split; [reflexivity|]. split; [reflexivity|].
  intros x y z. eexists. split; [reflexivity|].
  unfold_arrays. unfold Rdiv. ring.
Qed.

Lemma perspective_rows_witness :
  exists P,
    perspective 10 = Ok P /\
    has_shape 4 4 P /\
    row 2 P = [0; 0; 0; 0] /\
    row 3 P = [0; 0; (-1) / 10; 1] /\
    forall x y z : R,
    exists T, matmul P [[x]; [y]; [z]; [1]] = Ok T /\
              entry 3 0 T = 1 - z / 10.
Proof. apply (perspective_rows 10). lra. Defined.

(** ** The combined transform *)

(** C1.  For every parameter state the combined matrix is the product,
    taken left to right, of [perspective d], [translate tx ty tz],
    [hom_rotate_x rx], [hom_rotate_y ry] and [hom_rotate_z rz]; it is
    raised where [perspective d] is. *)
Theorem full_transform_matrix_product (p : params) :
  full_transform_matrix p
  = (P <- perspective (d p) ;;
     Ok (P @@ translate (tx p) (ty p) (tz p) @@ hom_rotate_x (rx p)
           @@ hom_rotate_y (ry p) @@ hom_rotate_z (rz p))).
Proof.
  unfold full_transform_matrix.
  destruct (perspective (d p)) as [P|e]; simpl; [|reflexivity].
  f_equal.
  destruct (has_shape_assoc_side _ _ _ (translate_shape (tx p) (ty p) (tz p)))
    as [HT1 HT2].
  destruct (has_shape_assoc_side _ _ _ (hom_rotate_x_shape (rx p)))
    as [HX1 HX2].
  destruct (has_shape_assoc_side _ _ _ (hom_rotate_y_shape (ry p)))
    as [HY1 HY2].
  rewrite (mmul_assoc _ _ (hom_rotate_z (rz p)) HY1 HY2).
  rewrite (mmul_assoc _ _ (hom_rotate_y (ry p) @@ hom_rotate_z (rz p)) HX1 HX2).
  rewrite (mmul_assoc P _ _ HT1 HT2).
  reflexivity.
Qed.

(** C9.  With the parameters at their defaults ([d] = 10, the rest 0) the
    combined matrix is [perspective 10] alone. *)
Theorem full_transform_matrix_default :
  full_transform_matrix global_params = perspective (d global_params).
Proof.
  unfold full_transform_matrix, global_params, multi_dot; simpl d; simpl tx;
    simpl ty; simpl tz; simpl rx; simpl ry; simpl rz.
  rewrite perspective_nonzero by lra. simpl bind. f_equal.
  unfold_arrays. rewrite cos_0, sin_0. array_eq ltac:(ring).
Qed.

(** ** The pairing loop *)

Lemma pairing_loop_step (arr : list point2d) (j : nat) (arr2 : list segment2d) :
  pairing_loop arr j arr2
  = if Z_lt_dec (Z.of_nat j) (Z.of_nat (length arr) - 1)
    then pairing_loop arr (j + 2) (arr2 ++ [(item arr j, item arr (j + 1))])
    else arr2.
Proof.
  funelim (pairing_loop arr j arr2); rewrite Heq; reflexivity.
Qed.

Lemma half_zero (m : nat) : (m / 2 = 0 -> m < 2)%nat.
Proof. intros H. apply Nat.div_small_iff in H; [exact H|discriminate]. Qed.

Lemma half_succ (m n : nat) : (m / 2 = S n -> 2 <= m /\ (m - 2) / 2 = n)%nat.
Proof.
  intros H.
  pose proof (Nat.div_mod_eq m 2) as E.
  pose proof (Nat.mod_upper_bound m 2 ltac:(discriminate)) as B.
  rewrite H in E. split; [lia|].
  symmetry. apply (Nat.div_unique (m - 2) 2 n (m mod 2)); lia.
Qed.

(** From index [j] on, the loop appends [n] pairs, where [n] is half the
    number of items left. *)
Lemma pairing_loop_pairs (arr : list point2d) (n : nat) :
  forall (j : nat) (arr2 : list segment2d),
    ((length arr - j) / 2 = n)%nat ->
    pairing_loop arr j arr2
    = arr2 ++ map (fun k => (item arr (j + 2 * k), item arr (j + 2 * k + 1)))
                  (seq 0 n).
Proof.
  induction n as [|n IH]; intros j arr2 Hn; rewrite pairing_loop_step.
  - apply half_zero in Hn.
    destruct (Z_lt_dec _ _) as [H|_]; [lia|]. simpl. now rewrite app_nil_r.
  - apply half_succ in Hn. destruct Hn as [Hge Hn].
    destruct (Z_lt_dec _ _) as [_|H]; [|lia].
    rewrite IH by (rewrite <- Hn; f_equal; lia).
    rewrite <- app_assoc. f_equal. simpl app.
    change (seq 0 (S n)) with (0 :: seq 1 n)%nat.
    rewrite <- seq_shift, map_cons, map_map. f_equal.
    + now rewrite Nat.mul_0_r, !Nat.add_0_r.
    + apply map_ext. intros k. f_equal; f_equal; lia.
Qed.

(** ** The projector *)

Lemma np_divide_nonzero (x y : R) : y <> 0 -> np_divide x y = Finite (x / y).
Proof.
  intros Hy. unfold np_divide.
  destruct (Req_dec_T y 0) as [E|_]; [contradiction|reflexivity].
Qed.

Lemma length_divide_columns (m : ndarray) :
  length (divide_columns m) = length (row 0 m).
Proof. unfold divide_columns. now rewrite length_map, length_seq. Qed.

Lemma item_divide_columns (m : ndarray) (i : nat) :
  (i < length (row 0 m))%nat ->
  item (divide_columns m) i
  = (np_divide (entry 0 i m) (entry 3 i m),
     np_divide (entry 1 i m) (entry 3 i m)).
Proof.
  intros Hi. unfold item, divide_columns.
  set (f := fun i : nat =>
              let first := np_divide (entry 0 i m) (entry 3 i m) in
              let second := np_divide (entry 1 i m) (entry 3 i m) in
              (first, second)).
  rewrite (nth_indep _ _ (f 0%nat)) by (rewrite length_map, length_seq; exact Hi).
  rewrite (map_nth f), seq_nth by exact Hi. reflexivity.
Qed.

Lemma has_shape_row0 (n k : nat) (m : ndarray) :
  has_shape (S n) k m -> length (row 0 m) = k.
Proof.
  intros H. rewrite <- (has_shape_shape1 _ _ _ H).
  destruct H as [Hn _]. destruct m; [discriminate|reflexivity].
Qed.

Lemma even_mod2 (n : nat) : ((2 * n) mod 2 = 0)%nat.
Proof. rewrite Nat.mul_comm. apply Nat.Div0.mod_mul. Qed.

Lemma half_double (n : nat) : ((2 * n - 0) / 2 = n)%nat.
Proof. rewrite Nat.sub_0_r, Nat.mul_comm. apply Nat.div_mul. discriminate. Qed.

Lemma odd_mod2 (n : nat) : (n mod 2 <> 0)%nat <-> Nat.Odd n.
Proof.
  pose proof (Nat.div_mod_eq n 2) as E.
  pose proof (Nat.mod_upper_bound n 2 ltac:(discriminate)) as B.
  split.
  - intros H. exists (n / 2)%nat. lia.
  - intros [k Hk] H. rewrite H in E. lia.
Qed.

(** On a 4 x 2N array with nonzero homogeneous row the projector returns
    the N segments of consecutive columns. *)
Lemma matrix_to_projection_pairs (m : ndarray) (N : nat) :
  has_shape 4 (2 * N) m ->
  (forall i, (i < 2 * N)%nat -> entry 3 i m <> 0) ->
  matrix_to_projection m
  = Ok (map (fun k => (perspective_divide m (2 * k),
                       perspective_divide m (2 * k + 1)))
            (seq 0 N)).
Proof.
  intros Hm Hnz. unfold matrix_to_projection, shape0.
  rewrite (proj1 Hm), (has_shape_shape1 _ _ _ Hm), even_mod2. simpl negb.
  cbv iota zeta. f_equal.
  pose proof (has_shape_row0 _ _ _ Hm) as Hlen.
  rewrite (pairing_loop_pairs _ N)
    by (rewrite length_divide_columns, Hlen; apply half_double).
  simpl app. apply map_ext_in. intros k Hk. apply in_seq in Hk.
  rewrite !item_divide_columns by lia.
  rewrite !np_divide_nonzero by (apply Hnz; lia).
  reflexivity.
Qed.

(** C4.  On a 4 x 2N array [m] with nonzero entries in row 3 the projector
    returns exactly N segments: segment [k] joins the perspective divides
    of columns [2k] and [2k+1], in column order.  On
    [[1,1],[1,1],[0,0],[1,2]] it returns the one segment
    ((1,1), (0.5,0.5)). *)
Theorem matrix_to_projection_segments (m : ndarray) (N : nat) :
  has_shape 4 (2 * N) m ->
  (forall i, (i < 2 * N)%nat -> entry 3 i m <> 0) ->
  (exists segs,
      matrix_to_projection m = Ok segs /\
      length segs = N /\
      forall k, (k < N)%nat ->
        nth_error segs k
        = Some (perspective_divide m (2 * k),
                perspective_divide m (2 * k + 1))) /\
  matrix_to_projection [[1; 1]; [1; 1]; [0; 0]; [1; 2]]
  = Ok [((Finite 1, Finite 1), (Finite 0.5, Finite 0.5))].
Proof.
  intros Hm Hnz. split.
  - eexists. split; [apply (matrix_to_projection_pairs m N Hm Hnz)|].
    split; [now rewrite length_map, length_seq|].
    intros k Hk.
    set (f := fun k : nat => (perspective_divide m (2 * k),
                              perspective_divide m (2 * k + 1))).
    rewrite (nth_error_nth' _ (f 0%nat))
      by (rewrite length_map, length_seq; exact Hk).
    rewrite (map_nth f), seq_nth by exact Hk. reflexivity.
  - rewrite (matrix_to_projection_pairs _ 1).
    + unfold perspective_divide, entry, row. simpl.
      repeat f_equal; lra.
    + split; [reflexivity|repeat constructor].
    + intros i Hi. unfold entry, row. simpl.
      destruct i as [|[|i]]; [lra|lra|lia].
Qed.

Lemma matrix_to_projection_segments_witness :
  (exists segs,
      matrix_to_projection [[1; 1]; [1; 1]; [0; 0]; [1; 2]] = Ok segs /\
      length segs = 1%nat /\
      forall k, (k < 1)%nat ->
        nth_error segs k
        = Some (perspective_divide [[1; 1]; [1; 1]; [0; 0]; [1; 2]] (2 * k),
                perspective_divide [[1; 1]; [1; 1]; [0; 0]; [1; 2]]
                  (2 * k + 1))) /\
  matrix_to_projection [[1; 1]; [1; 1]; [0; 0]; [1; 2]]
  = Ok [((Finite 1, Finite 1), (Finite 0.5, Finite 0.5))].
Proof.
  apply (matrix_to_projection_segments [[1; 1]; [1; 1]; [0; 0]; [1; 2]] 1).
  - split; [reflexivity|repeat constructor].
  - intros i Hi. unfold entry, row. simpl.
    destruct i as [|[|i]]; [lra|lra|lia].
Defined.

(** C6.  The projector fails its shape assertion exactly when the array
    does not have 4 rows or has an odd number of columns; the assertions
    come before the loops, and no other exception leaves the function.
    A 3-row array and a 4 x 1 array are refused. *)
Theorem matrix_to_projection_assertion (m : ndarray) :
  (matrix_to_projection m = Raise AssertionError
   <-> shape0 m <> 4%nat \/ Nat.Odd (shape1 m)) /\
  (forall e, matrix_to_projection m = Raise e -> e = AssertionError) /\
  matrix_to_projection [[1; 1]; [1; 1]; [1; 1]] = Raise AssertionError /\
  matrix_to_projection [[1]; [1]; [0]; [1]] = Raise AssertionError.
Proof.
  unfold matrix_to_projection. repeat split.
  - destruct (Nat.eqb_spec (shape0 m) 4) as [E|E]; cbn [negb]; [|now left].
    destruct (Nat.eqb_spec (shape1 m mod 2) 0) as [E2|E2]; cbn [negb].
    + intros H. discriminate H.
    + intros _. right. now apply odd_mod2.
  - intros [H|H].
    + destruct (Nat.eqb_spec (shape0 m) 4) as [E|E]; [contradiction|reflexivity].
    + apply odd_mod2 in H.
      destruct (Nat.eqb_spec (shape0 m) 4) as [E|E]; cbn [negb]; [|reflexivity].
      destruct (Nat.eqb_spec (shape1 m mod 2) 0) as [E2|E2];
        [contradiction|reflexivity].
  - intros e.
    destruct (Nat.eqb (shape0 m) 4); cbn [negb]; [|congruence].
    destruct (Nat.eqb (shape1 m mod 2) 0); cbn [negb]; congruence.
Qed.

(** ** The combined transform on point matrices *)

Lemma full_transform_matrix_nonzero (p : params) :
  d p <> 0 ->
  full_transform_matrix p
  = Ok ([[1; 0; 0; 0]; [0; 1; 0; 0]; [0; 0; 0; 0]; [0; 0; (-1) / d p; 1]]
        @@ (translate (tx p) (ty p) (tz p)
            @@ (hom_rotate_x (rx p)
                @@ (hom_rotate_y (ry p) @@ hom_rotate_z (rz p))))).
Proof.
  intros Hd. unfold full_transform_matrix.
  rewrite perspective_nonzero by exact Hd. reflexivity.
Qed.

Lemma mmul_shape (a b : ndarray) (n k : nat) :
  length a = n -> shape1 b = k -> has_shape n k (a @@ b).
Proof.
  intros Ha Hb. split; [now rewrite length_mmul|].
  unfold mmul. apply Forall_map, Forall_forall. intros r _.
  now rewrite length_map, length_seq.
Qed.

(** C10.  For every parameter state with nonzero [d], row 2 of the
    combined matrix is all zeros, and so is row 2 of its product with any
    point matrix of 4 rows. *)
Theorem full_transform_matrix_zero_row (p : params) :
  d p <> 0 ->
  exists M,
    full_transform_matrix p = Ok M /\
    has_shape 4 4 M /\
    row 2 M = [0; 0; 0; 0] /\
    forall (n : nat) (S : ndarray),
      has_shape 4 n S ->
      exists T, matmul M S = Ok T /\ has_shape 4 n T /\ row 2 T = repeat 0 n.
Proof.
  intros Hd. eexists.
  split; [apply full_transform_matrix_nonzero; exact Hd|].
  set (P := [[1; 0; 0; 0]; [0; 1; 0; 0]; [0; 0; 0; 0]; [0; 0; (-1) / d p; 1]]).
  set (W := translate (tx p) (ty p) (tz p)
            @@ (hom_rotate_x (rx p)
                @@ (hom_rotate_y (ry p) @@ hom_rotate_z (rz p)))).
  assert (shape1 W = 4%nat) as HW by reflexivity.
  assert (has_shape 4 4 (P @@ W)) as HM by (apply mmul_shape; [reflexivity|exact HW]).
  assert (row 2 (P @@ W) = [0; 0; 0; 0]) as Hrow.
  { rewrite (zero_row_mmul 2 P W) by (simpl; first [lia | reflexivity]).
    now rewrite HW. }
  split; [exact HM|]. split; [exact Hrow|].
  intros n S HS. exists ((P @@ W) @@ S).
  pose proof (has_shape_shape1 _ _ _ HS) as HS1.
  split.
  - unfold matmul.
    rewrite (has_shape_shape1 _ _ _ HM). unfold shape0. now rewrite (proj1 HS).
  - split.
    + apply mmul_shape; [exact (proj1 HM)|exact HS1].
    + rewrite zero_row_mmul; [now rewrite HS1| |exact Hrow].
      rewrite (proj1 HM). lia.
Qed.

Lemma full_transform_matrix_zero_row_witness :
  exists M,
    full_transform_matrix global_params = Ok M /\
    has_shape 4 4 M /\
    row 2 M = [0; 0; 0; 0] /\
    forall (n : nat) (S : ndarray),
      has_shape 4 n S ->
      exists T, matmul M S = Ok T /\ has_shape 4 n T /\ row 2 T = repeat 0 n.
Proof.
  apply (full_transform_matrix_zero_row global_params). simpl. lra.
Defined.

(** The rotations fix the origin, a translation moves it to its vector,
    and the perspective matrix sends (x, y, z, 1) to (x, y, 0, 1 - z/d). *)
Lemma hom_rotate_x_origin (t : R) : hom_rotate_x t @@ origin_matrix = origin_matrix.
Proof. unfold origin_matrix. unfold_arrays. array_eq ltac:(ring). Qed.

Lemma hom_rotate_y_origin (t : R) : hom_rotate_y t @@ origin_matrix = origin_matrix.
Proof. unfold origin_matrix. unfold_arrays. array_eq ltac:(ring). Qed.

Lemma hom_rotate_z_origin (t : R) : hom_rotate_z t @@ origin_matrix = origin_matrix.
Proof. unfold origin_matrix. unfold_arrays. array_eq ltac:(ring). Qed.

Lemma translate_origin (x y z : R) :
  translate x y z @@ origin_matrix = [[x; x]; [y; y]; [z; z]; [1; 1]].
Proof. unfold origin_matrix. unfold_arrays. array_eq ltac:(ring). Qed.

Lemma perspective_point_pair (dist x y z : R) :
  [[1; 0; 0; 0]; [0; 1; 0; 0]; [0; 0; 0; 0]; [0; 0; (-1) / dist; 1]]
    @@ [[x; x]; [y; y]; [z; z]; [1; 1]]
  = [[x; x]; [y; y]; [0; 0]; [1 - z / dist; 1 - z / dist]].
Proof. unfold_arrays. array_eq ltac:(unfold Rdiv; ring). Qed.

(** The combined transform of the origin does not depend on the rotation
    parameters. *)
Lemma transformed_origin (p : params) :
  d p <> 0 ->
  exists M,
    full_transform_matrix p = Ok M /\
    matmul M origin_matrix
    = Ok [[tx p; tx p]; [ty p; ty p]; [0; 0];
          [1 - tz p / d p; 1 - tz p / d p]].
Proof.
  intros Hd. eexists.
  split; [apply full_transform_matrix_nonzero; exact Hd|].
  unfold matmul.
  match goal with
  | |- (if ?c then _ else _) = _ => replace c with true by reflexivity
  end.
  f_equal.
  pose proof (hom_rotate_y_shape (ry p)) as HY.
  pose proof (hom_rotate_z_shape (rz p)) as HZ.
  pose proof (has_shape_shape1 _ _ _ HZ) as HZ1.
  assert (has_shape 4 4 (hom_rotate_y (ry p) @@ hom_rotate_z (rz p))) as HYZ
    by (apply mmul_shape; [exact (proj1 HY)|exact HZ1]).
  assert (has_shape 4 4 (hom_rotate_x (rx p)
                         @@ (hom_rotate_y (ry p) @@ hom_rotate_z (rz p)))) as HXYZ
    by (apply mmul_shape; [reflexivity|exact (has_shape_shape1 _ _ _ HYZ)]).
  assert (has_shape 4 4 (translate (tx p) (ty p) (tz p)
                         @@ (hom_rotate_x (rx p)
                             @@ (hom_rotate_y (ry p) @@ hom_rotate_z (rz p)))))
    as HTXYZ
    by (apply mmul_shape; [reflexivity|exact (has_shape_shape1 _ _ _ HXYZ)]).
  rewrite mmul_assoc by (apply (has_shape_assoc_side _ _ _ HTXYZ)).
  rewrite mmul_assoc by (apply (has_shape_assoc_side _ _ _ HXYZ)).
  rewrite mmul_assoc by (apply (has_shape_assoc_side _ _ _ HYZ)).
  rewrite mmul_assoc by (apply (has_shape_assoc_side _ _ _ HZ)).
  rewrite hom_rotate_z_origin, hom_rotate_y_origin, hom_rotate_x_origin.
  rewrite translate_origin. apply perspective_point_pair.
Qed.

(** C2.  Two parameter states with the same nonzero [d] and the same
    translation, whatever their rotation angles, send the origin to the
    same transformed column (tx, ty, 0, 1 - tz/d); where that homogeneous
    coordinate is nonzero, the projection of the origin is the same 2D
    point (tx / (1 - tz/d), ty / (1 - tz/d)) in both states. *)
Theorem rotation_keeps_projected_origin (p q : params) :
  d p = d q -> tx p = tx q -> ty p = ty q -> tz p = tz q ->
  d p <> 0 ->
  1 - tz p / d p <> 0 ->
  let w := 1 - tz p / d p in
  let o := (Finite (tx p / w), Finite (ty p / w)) in
  (exists M N,
      full_transform_matrix p = Ok M /\ full_transform_matrix q = Ok N /\
      matmul M origin_matrix = Ok [[tx p; tx p]; [ty p; ty p]; [0; 0]; [w; w]] /\
      matmul N origin_matrix = matmul M origin_matrix) /\
  full_transform p origin_matrix = Ok [(o, o)] /\
  full_transform q origin_matrix = full_transform p origin_matrix.
Proof.
  intros Ed Ex Ey Ez Hd Hw w o.
  assert (d q <> 0) as Hdq by (rewrite <- Ed; exact Hd).
  destruct (transformed_origin p Hd) as [M [HM HMo]].
  destruct (transformed_origin q Hdq) as [N [HN HNo]].
  rewrite <- Ed, <- Ex, <- Ey, <- Ez in HNo.
  assert (full_transform p origin_matrix = Ok [(o, o)]) as Hp.
  { unfold full_transform. rewrite HM. cbn [bind]. rewrite HMo. cbn [bind].
    rewrite (matrix_to_projection_pairs _ 1).
    - reflexivity.
    - split; [reflexivity|repeat constructor].
    - intros i Hi. destruct i as [|[|i]]; [exact Hw|exact Hw|lia]. }
  split; [|split].
  - exists M, N. repeat split; try assumption. now rewrite HNo, HMo.
  - exact Hp.
  - rewrite Hp. unfold full_transform.
    rewrite HN. cbn [bind]. rewrite HNo. cbn [bind].
    rewrite (matrix_to_projection_pairs _ 1).
    + reflexivity.
    + split; [reflexivity|repeat constructor].
    + intros i Hi. destruct i as [|[|i]]; [exact Hw|exact Hw|lia].
Qed.

(** ** The point matrix of a wireframe *)

Lemma nth_col (i j : nat) (m : ndarray) :
  (i < length m)%nat -> nth i (col j m) 0 = nth j (nth i m []) 0.
Proof.
  intros Hi. unfold col.
  rewrite (nth_indep _ 0 (nth j [] 0)) by (rewrite length_map; exact Hi).
  exact (map_nth (fun r => nth j r 0) m [] i).
Qed.

Lemma has_shape_nth (n k i : nat) (m : ndarray) :
  has_shape n k m -> (i < n)%nat -> length (nth i m []) = k.
Proof.
  intros [Hn Hk] Hi. rewrite Forall_forall in Hk.
  apply Hk, nth_In. now rewrite Hn.
Qed.

(** Transposing twice gives the array back (for an array with columns). *)
Lemma transpose_involutive (n k : nat) (m : ndarray) :
  has_shape n (S k) m -> transpose (transpose m) = m.
Proof.
  intros Hm. destruct m as [|r0 m']; [reflexivity|].
  set (m := r0 :: m') in *.
  destruct n as [|n]; [destruct Hm; discriminate|].
  pose proof (has_shape_shape1 _ _ _ Hm) as H1.
  assert (shape1 (transpose m) = length m) as H2.
  { unfold transpose at 1. rewrite H1. cbn [seq map shape1]. apply length_col. }
  unfold transpose at 1. rewrite H2.
  transitivity (map (fun i => nth i m []) (seq 0 (length m)));
    [|apply map_nth_seq].
  apply map_ext_in. intros i Hi. apply in_seq in Hi.
  unfold transpose, col at 1. rewrite map_map, H1.
  rewrite (map_ext_in _ (fun j => nth j (nth i m []) 0))
    by (intros j _; apply nth_col; lia).
  rewrite <- (has_shape_nth _ _ i _ Hm) by (rewrite <- (proj1 Hm); lia).
  apply map_nth_seq.
Qed.

Lemma length_concat_pairs (shape : wireframe) :
  Forall (fun e => length e = 2%nat) shape ->
  length (concat shape) = (2 * length shape)%nat.
Proof.
  induction 1 as [|e shape He _ IH]; [reflexivity|].
  simpl concat. rewrite length_app, He, IH. simpl. lia.
Qed.

Lemma point_array_shape (pts : list point) :
  has_shape (length pts) 3 (map point_array pts).
Proof.
  split; [apply length_map|]. apply Forall_map, Forall_forall.
  intros [[x y] z] _. reflexivity.
Qed.

Lemma hom_point_shape (pts : list point) :
  has_shape (length pts) 4 (map (fun p => point_array p ++ [1]) pts).
Proof.
  split; [apply length_map|]. apply Forall_map, Forall_forall.
  intros [[x y] z] _. reflexivity.
Qed.

(** The columns of the point matrix are the points of the edge list, guide
    axes included, each with a 1 appended. *)
Lemma shape_to_hom_matrix_columns (shape : wireframe) :
  transpose (shape_to_hom_matrix shape)
  = map (fun p => point_array p ++ [1]) (concat (shape ++ guide_axes)).
Proof.
  unfold shape_to_hom_matrix, apply_along_axis0.
  rewrite (transpose_involutive _ _ _ (point_array_shape _)), map_map.
  apply (transpose_involutive _ _ _ (hom_point_shape _)).
Qed.

(** The rows of the point matrix: the x, y and z coordinates and the ones. *)
Lemma shape_to_hom_matrix_rows (shape : wireframe) :
  let pts := concat (shape ++ guide_axes) in
  shape_to_hom_matrix shape
  = [map (fun p => fst (fst p)) pts;
     map (fun p => snd (fst p)) pts;
     map (fun p => snd p) pts;
     map (fun _ => 1) pts].
Proof.
  intros pts. unfold shape_to_hom_matrix, apply_along_axis0.
  rewrite (transpose_involutive _ _ _ (point_array_shape _)), map_map.
  fold pts.
  assert (pts <> []) as Hne.
  { unfold pts. rewrite concat_app. intros H.
    apply (f_equal (@length point)) in H. rewrite length_app in H.
    simpl in H. lia. }
  unfold transpose.
  match goal with
  | |- context [seq 0 ?k] =>
      replace k with 4%nat
        by (destruct pts as [|[[x y] z] pts']; [congruence|reflexivity])
  end.
  unfold col. simpl seq. cbn [map]. rewrite !map_map.
  repeat match goal with
         | |- _ :: _ = _ :: _ => apply f_equal2
         | |- [] = [] => reflexivity
         | |- map _ _ = map _ _ =>
             apply map_ext; intros [[x y] z]; reflexivity
         end.
Qed.

(** C5.  For every wireframe whose line segments have two points each (the
    empty wireframe included) the point matrix has 4 rows and
    2 * (|edges| + 3) columns, its row 3 is all ones, its first 2 * |edges|
    columns are the wireframe's points in edge order, and its last 6
    columns are the endpoints of the guide axes in X, Y, Z order. *)
Theorem shape_to_hom_matrix_shape (shape : wireframe) :
  Forall (fun e => length e = 2%nat) shape ->
  let M := shape_to_hom_matrix shape in
  let n := (2 * (length shape + 3))%nat in
  has_shape 4 n M /\
  row 3 M = repeat 1 n /\
  transpose M
  = map (fun p => point_array p ++ [1]) (concat shape)
    ++ map (fun p => point_array p ++ [1]) (concat guide_axes) /\
  skipn (n - 6) (transpose M)
  = [[-0.75; 0; 0; 1]; [0.75; 0; 0; 1];
     [0; -0.75; 0; 1]; [0; 0.75; 0; 1];
     [0; 0; -0.75; 1]; [0; 0; 0.75; 1]].
Proof.
  intros Hshape M n.
  assert (length (concat (shape ++ guide_axes)) = n) as Hlen.
  { rewrite concat_app, length_app, (length_concat_pairs _ Hshape).
    unfold n. simpl. lia. }
  assert (transpose M
          = map (fun p => point_array p ++ [1]) (concat shape)
            ++ map (fun p => point_array p ++ [1]) (concat guide_axes)) as Hcols.
  { unfold M. now rewrite shape_to_hom_matrix_columns, concat_app, map_app. }
  repeat split.
  - unfold M. now rewrite shape_to_hom_matrix_rows.
  - unfold M. rewrite shape_to_hom_matrix_rows.
    repeat constructor; rewrite length_map; exact Hlen.
  - unfold M. rewrite shape_to_hom_matrix_rows. unfold row. cbn [nth].
    now rewrite map_const_repeat, Hlen.
  - exact Hcols.
  - rewrite Hcols.
    set (l1 := map (fun p => point_array p ++ [1]) (concat shape)).
    assert ((n - 6)%nat = length l1) as ->
        by (unfold l1; rewrite length_map, (length_concat_pairs _ Hshape);
            unfold n; lia).
    rewrite skipn_app, skipn_all, Nat.sub_diag. reflexivity.
Qed.

Lemma shape_to_hom_matrix_shape_witness :
  has_shape 4 30 (shape_to_hom_matrix cube) /\
  row 3 (shape_to_hom_matrix cube) = repeat 1 30 /\
  transpose (shape_to_hom_matrix cube)
  = map (fun p => point_array p ++ [1]) (concat cube)
    ++ map (fun p => point_array p ++ [1]) (concat guide_axes) /\
  skipn 24 (transpose (shape_to_hom_matrix cube))
  = [[-0.75; 0; 0; 1]; [0.75; 0; 0; 1];
     [0; -0.75; 0; 1]; [0; 0.75; 0; 1];
     [0; 0; -0.75; 1]; [0; 0; 0.75; 1]].
Proof.
  apply (shape_to_hom_matrix_shape cube). unfold cube. repeat constructor.
Defined.

Lemma rotation_keeps_projected_origin_witness :
  full_transform (mkParams 10 1 2 5 0.5 1 2) origin_matrix
  = full_transform (mkParams 10 1 2 5 0 0 0) origin_matrix.
Proof.
  refine (proj2 (proj2 (rotation_keeps_projected_origin
                          (mkParams 10 1 2 5 0 0 0) (mkParams 10 1 2 5 0.5 1 2)
                          eq_refl eq_refl eq_refl eq_refl _ _)));
    simpl; lra.
Defined.

(** * Further properties *)

(** ** Rotations and the perspective matrix *)

Lemma cos_add_2PI (t : R) : cos (t + 2 * PI) = cos t.
Proof. rewrite cos_plus, cos_2PI, sin_2PI. ring. Qed.

Lemma sin_add_2PI (t : R) : sin (t + 2 * PI) = sin t.
Proof. rewrite sin_plus, cos_2PI, sin_2PI. ring. Qed.

(** X1.  Rotations about one axis compose by adding their angles, and so
    commute. *)
Theorem rotate_same_axis_compose (a b : R) :
  hom_rotate_x a @@ hom_rotate_x b = hom_rotate_x (a + b) /\
  hom_rotate_y a @@ hom_rotate_y b = hom_rotate_y (a + b) /\
  hom_rotate_z a @@ hom_rotate_z b = hom_rotate_z (a + b) /\
  hom_rotate_x a @@ hom_rotate_x b = hom_rotate_x b @@ hom_rotate_x a /\
  hom_rotate_y a @@ hom_rotate_y b = hom_rotate_y b @@ hom_rotate_y a /\
  hom_rotate_z a @@ hom_rotate_z b = hom_rotate_z b @@ hom_rotate_z a.
Proof.
  repeat split; unfold_arrays; rewrite ?cos_plus, ?sin_plus;
    array_eq ltac:(ring).
Qed.

(** X2.  The rotation by angle 0 and the translation by the zero vector are the
    identity, and a rotation does not change when a full turn is added to
    its angle. *)
Theorem rotate_zero_and_full_turn (theta : R) :
  hom_rotate_x 0 = eye 4 /\ hom_rotate_y 0 = eye 4 /\
  hom_rotate_z 0 = eye 4 /\ translate 0 0 0 = eye 4 /\
  hom_rotate_x (theta + 2 * PI) = hom_rotate_x theta /\
  hom_rotate_y (theta + 2 * PI) = hom_rotate_y theta /\
  hom_rotate_z (theta + 2 * PI) = hom_rotate_z theta.
Proof.
  repeat split; unfold_arrays;
    rewrite ?cos_0, ?sin_0, ?cos_add_2PI, ?sin_add_2PI;
    array_eq ltac:(ring).
Qed.

(** X3.  The transpose of a rotation is the rotation by the opposite angle, so
    every rotation matrix times its transpose is the identity. *)
Theorem rotate_transpose (theta : R) :
  transpose (hom_rotate_x theta) = hom_rotate_x (- theta) /\
  transpose (hom_rotate_y theta) = hom_rotate_y (- theta) /\
  transpose (hom_rotate_z theta) = hom_rotate_z (- theta) /\
  hom_rotate_x theta @@ transpose (hom_rotate_x theta) = eye 4 /\
  hom_rotate_y theta @@ transpose (hom_rotate_y theta) = eye 4 /\
  hom_rotate_z theta @@ transpose (hom_rotate_z theta) = eye 4.
Proof.
  pose proof (cos2_sin2_prod theta) as H.
  repeat split; unfold transpose; unfold_arrays; rewrite ?cos_neg, ?sin_neg;
    array_eq ltac:(first [ring | lra]).
Qed.

(** X4.  Applying the perspective matrix twice is applying it once. *)
Theorem perspective_idempotent (dist : R) :
  dist <> 0 ->
  exists P, perspective dist = Ok P /\ P @@ P = P.
Proof.
  intros Hd. eexists. split; [apply perspective_nonzero; exact Hd|].
  unfold_arrays. array_eq ltac:(ring).
Qed.

Lemma perspective_idempotent_witness :
  exists P, perspective 10 = Ok P /\ P @@ P = P.
Proof. apply (perspective_idempotent 10). lra. Defined.

(** ** Rows and columns of products with point matrices *)

Lemma entry_mmul (i j : nat) (a b : ndarray) :
  (i < length a)%nat -> (j < shape1 b)%nat ->
  entry i j (a @@ b) = vdot (row i a) (col j b).
Proof.
  intros Hi Hj. unfold entry. rewrite row_mmul by exact Hi.
  rewrite (nth_indep _ 0 (vdot (row i a) (col 0 b)))
    by (rewrite length_map, length_seq; exact Hj).
  rewrite (map_nth (fun j => vdot (row i a) (col j b))), seq_nth by exact Hj.
  reflexivity.
Qed.

Lemma col_four_rows (j n : nat) (S : ndarray) :
  has_shape 4 n S ->
  col j S = [entry 0 j S; entry 1 j S; entry 2 j S; entry 3 j S].
Proof.
  intros [Hn _].
  destruct S as [|r0 [|r1 [|r2 [|r3 [|r4 S]]]]]; try discriminate.
  reflexivity.
Qed.

Lemma row_entries (i n k : nat) (S : ndarray) :
  has_shape n k S -> (i < n)%nat ->
  row i S = map (fun j => entry i j S) (seq 0 k).
Proof.
  intros HS Hi. unfold entry.
  rewrite <- (has_shape_nth _ _ i _ HS Hi). symmetry. apply map_nth_seq.
Qed.

(** A left factor whose last row is (0, 0, 0, 1) leaves the last row of a
    4-row array as it is. *)
Lemma unit_row_mmul (a S : ndarray) (n : nat) :
  length a = 4%nat -> row 3 a = [0; 0; 0; 1] -> has_shape 4 n S ->
  row 3 (a @@ S) = row 3 S.
Proof.
  intros Ha Hrow HS.
  rewrite row_mmul by (rewrite Ha; lia).
  rewrite Hrow, (has_shape_shape1 _ _ _ HS), (row_entries 3 _ _ _ HS) by lia.
  apply map_ext. intros j. rewrite (col_four_rows j n S HS).
  simpl. ring.
Qed.

(** X5.  The rotations and the translation keep the homogeneous row of every
    4-row point matrix: only the perspective matrix changes it. *)
Theorem affine_keeps_homogeneous_row (S : ndarray) (n : nat) (t x y z : R) :
  has_shape 4 n S ->
  row 3 (hom_rotate_x t @@ S) = row 3 S /\
  row 3 (hom_rotate_y t @@ S) = row 3 S /\
  row 3 (hom_rotate_z t @@ S) = row 3 S /\
  row 3 (translate x y z @@ S) = row 3 S.
Proof.
  intros HS.
  repeat split; apply (unit_row_mmul _ S n); try exact HS; reflexivity.
Qed.

Lemma affine_keeps_homogeneous_row_witness :
  row 3 (hom_rotate_x 1 @@ origin_matrix) = row 3 origin_matrix /\
  row 3 (hom_rotate_y 1 @@ origin_matrix) = row 3 origin_matrix /\
  row 3 (hom_rotate_z 1 @@ origin_matrix) = row 3 origin_matrix /\
  row 3 (translate 1 2 3 @@ origin_matrix) = row 3 origin_matrix.
Proof.
  apply (affine_keeps_homogeneous_row origin_matrix 2 1 1 2 3).
  split; [reflexivity|repeat constructor].
Defined.

(** ** More on the projector *)

Lemma np_divide_zero (x : R) : np_divide x 0 = NonFinite.
Proof.
  unfold np_divide. destruct (Req_dec_T 0 0) as [_|N]; [reflexivity|].
  now contradiction N.
Qed.

(** On every 4 x 2N array the projector returns N segments, whatever the
    entries. *)
Lemma matrix_to_projection_total (m : ndarray) (N : nat) :
  has_shape 4 (2 * N) m ->
  matrix_to_projection m
  = Ok (map (fun k => (divided_column m (2 * k), divided_column m (2 * k + 1)))
            (seq 0 N)).
Proof.
  intros Hm. unfold matrix_to_projection, shape0.
  rewrite (proj1 Hm), (has_shape_shape1 _ _ _ Hm), even_mod2. simpl negb.
  cbv iota zeta. f_equal.
  pose proof (has_shape_row0 _ _ _ Hm) as Hlen.
  rewrite (pairing_loop_pairs _ N)
    by (rewrite length_divide_columns, Hlen; apply half_double).
  simpl app. apply map_ext_in. intros k Hk. apply in_seq in Hk.
  rewrite !item_divide_columns by lia. reflexivity.
Qed.

(** X6.  A zero homogeneous coordinate raises nothing: on every 4 x 2N array
    the projector returns N segments, segment [k] made of the divided
    columns [2k] and [2k+1], and a column whose entry in row 3 is 0 gives a
    point with two non-finite coordinates. *)
Theorem matrix_to_projection_never_raises_on_zero (m : ndarray) (N : nat) :
  has_shape 4 (2 * N) m ->
  (exists segs,
      matrix_to_projection m = Ok segs /\
      length segs = N /\
      forall k, (k < N)%nat ->
        nth_error segs k
        = Some (divided_column m (2 * k), divided_column m (2 * k + 1))) /\
  (forall i, entry 3 i m = 0 -> divided_column m i = (NonFinite, NonFinite)) /\
  (forall i, entry 3 i m <> 0 -> divided_column m i = perspective_divide m i).
Proof.
  intros Hm. repeat split.
  - eexists. split; [apply (matrix_to_projection_total m N Hm)|].
    split; [now rewrite length_map, length_seq|].
    intros k Hk.
    set (f := fun k : nat => (divided_column m (2 * k),
                              divided_column m (2 * k + 1))).
    rewrite (nth_error_nth' _ (f 0%nat))
      by (rewrite length_map, length_seq; exact Hk).
    rewrite (map_nth f), seq_nth by exact Hk. reflexivity.
  - intros i Hi. unfold divided_column. now rewrite Hi, !np_divide_zero.
  - intros i Hi. unfold divided_column, perspective_divide.
    now rewrite !np_divide_nonzero by exact Hi.
Qed.

Lemma matrix_to_projection_never_raises_on_zero_witness :
  (exists segs,
      matrix_to_projection [[1; 1]; [1; 1]; [0; 0]; [0; 2]] = Ok segs /\
      length segs = 1%nat /\
      forall k, (k < 1)%nat ->
        nth_error segs k
        = Some (divided_column [[1; 1]; [1; 1]; [0; 0]; [0; 2]] (2 * k),
                divided_column [[1; 1]; [1; 1]; [0; 0]; [0; 2]] (2 * k + 1))) /\
  (forall i, entry 3 i [[1; 1]; [1; 1]; [0; 0]; [0; 2]] = 0 ->
             divided_column [[1; 1]; [1; 1]; [0; 0]; [0; 2]] i
             = (NonFinite, NonFinite)) /\
  (forall i, entry 3 i [[1; 1]; [1; 1]; [0; 0]; [0; 2]] <> 0 ->
             divided_column [[1; 1]; [1; 1]; [0; 0]; [0; 2]] i
             = perspective_divide [[1; 1]; [1; 1]; [0; 0]; [0; 2]] i).
Proof.
  apply (matrix_to_projection_never_raises_on_zero
           [[1; 1]; [1; 1]; [0; 0]; [0; 2]] 1).
  split; [reflexivity|repeat constructor].
Defined.

(** X7.  The projector never reads row 2: replacing it changes nothing. *)
Theorem matrix_to_projection_ignores_row2 (m : ndarray) (n : nat) (r : vector) :
  has_shape 4 n m -> length r = n ->
  has_shape 4 n (set_row 2 r m) /\
  matrix_to_projection (set_row 2 r m) = matrix_to_projection m.
Proof.
  intros [Hn Hk] Hr.
  destruct m as [|r0 [|r1 [|r2 [|r3 [|r4 m]]]]]; try discriminate.
  split; [|reflexivity].
  split; [reflexivity|].
  inversion Hk as [|? ? H0 Hk1]; subst.
  inversion Hk1 as [|? ? H1 Hk2]; subst.
  inversion Hk2 as [|? ? H2 Hk3]; subst.
  simpl. repeat constructor; try assumption.
  now inversion Hk3.
Qed.

Lemma matrix_to_projection_ignores_row2_witness :
  has_shape 4 2 (set_row 2 [7; 8] [[1; 1]; [1; 1]; [0; 0]; [1; 2]]) /\
  matrix_to_projection (set_row 2 [7; 8] [[1; 1]; [1; 1]; [0; 0]; [1; 2]])
  = matrix_to_projection [[1; 1]; [1; 1]; [0; 0]; [1; 2]].
Proof.
  apply (matrix_to_projection_ignores_row2
           [[1; 1]; [1; 1]; [0; 0]; [1; 2]] 2 [7; 8]).
  - split; [reflexivity|repeat constructor].
  - reflexivity.
Defined.






(** ** The whole pipeline *)

Lemma full_transform_matrix_shape1 (p : params) :
  shape1 ([[1; 0; 0; 0]; [0; 1; 0; 0]; [0; 0; 0; 0]; [0; 0; (-1) / d p; 1]]
          @@ (translate (tx p) (ty p) (tz p)
              @@ (hom_rotate_x (rx p)
                  @@ (hom_rotate_y (ry p) @@ hom_rotate_z (rz p)))))
  = 4%nat.
Proof. reflexivity. Qed.

Lemma full_transform_even (p : params) (S : ndarray) (N : nat) :
  d p <> 0 -> has_shape 4 (2 * N) S ->
  exists segs, full_transform p S = Ok segs /\ length segs = N.
Proof.
  intros Hd HS. unfold full_transform.
  rewrite full_transform_matrix_nonzero by exact Hd.
  cbn [bind]. unfold matmul.
  rewrite full_transform_matrix_shape1. unfold shape0.
  rewrite (proj1 HS). cbn [Nat.eqb bind].
  rewrite (matrix_to_projection_total _ N)
    by (apply mmul_shape; [reflexivity|exact (has_shape_shape1 _ _ _ HS)]).
  eexists. split; [reflexivity|]. now rewrite length_map, length_seq.
Qed.

(** X9.  What [full_transform] does on each kind of input: the division in
    [perspective] fails first, then the shape check of [@], then the
    assertions of the projector; on a 4 x 2N point matrix N segments come
    back. *)
Theorem full_transform_outcome (p : params) (S : ndarray) :
  (d p = 0 -> full_transform p S = Raise ZeroDivisionError) /\
  (d p <> 0 -> shape0 S <> 4%nat -> full_transform p S = Raise ValueError) /\
  (d p <> 0 -> shape0 S = 4%nat -> Nat.Odd (shape1 S) ->
   full_transform p S = Raise AssertionError) /\
  (d p <> 0 -> forall N, has_shape 4 (2 * N) S ->
   exists segs, full_transform p S = Ok segs /\ length segs = N).
Proof.
  unfold full_transform. repeat split.
  - intros Hd. unfold full_transform_matrix.
    rewrite Hd, perspective_zero. reflexivity.
  - intros Hd HS. rewrite full_transform_matrix_nonzero by exact Hd.
    cbn [bind]. unfold matmul. rewrite full_transform_matrix_shape1.
    destruct (Nat.eqb_spec 4 (shape0 S)) as [E|E]; [congruence|reflexivity].
  - intros Hd HS Hodd. rewrite full_transform_matrix_nonzero by exact Hd.
    cbn [bind]. unfold matmul. rewrite full_transform_matrix_shape1, HS.
    cbn [Nat.eqb bind]. unfold matrix_to_projection, shape0.
    rewrite length_mmul, shape1_mmul by discriminate.
    cbn [length Nat.eqb negb].
    apply odd_mod2 in Hodd.
    destruct (Nat.eqb_spec (shape1 S mod 2) 0) as [E|E];
      [contradiction|reflexivity].
  - intros Hd N HS. fold (full_transform p S).
    exact (full_transform_even p S N Hd HS).
Qed.

Lemma full_transform_outcome_witness :
  full_transform (mkParams 0 0 0 0 0 0 0) origin_matrix
  = Raise ZeroDivisionError /\
  full_transform global_params [[1; 1]; [1; 1]; [1; 1]] = Raise ValueError /\
  full_transform global_params [[1]; [1]; [0]; [1]] = Raise AssertionError /\
  exists segs, full_transform global_params origin_matrix = Ok segs /\
               length segs = 1%nat.
Proof.
  split; [|split; [|split]].
  - apply (proj1 (full_transform_outcome (mkParams 0 0 0 0 0 0 0) origin_matrix)).
    reflexivity.
  - apply (proj1 (proj2 (full_transform_outcome global_params
                           [[1; 1]; [1; 1]; [1; 1]]))).
    + simpl. lra.
    + simpl. lia.
  - apply (proj1 (proj2 (proj2 (full_transform_outcome global_params
                                  [[1]; [1]; [0]; [1]])))).
    + simpl. lra.
    + reflexivity.
    + exists 0%nat. reflexivity.
  - apply (proj2 (proj2 (proj2 (full_transform_outcome global_params
                                  origin_matrix)))).
    + simpl. lra.
    + split; [reflexivity|repeat constructor].
Defined.

Lemma shape_to_hom_matrix_has_shape (shape : wireframe) :
  Forall (fun e => length e = 2%nat) shape ->
  has_shape 4 (2 * (length shape + 3)) (shape_to_hom_matrix shape).
Proof.
  intros Hshape.
  assert (length (concat (shape ++ guide_axes)) = (2 * (length shape + 3))%nat)
    as Hlen.
  { rewrite concat_app, length_app, (length_concat_pairs _ Hshape).
    simpl. lia. }
  rewrite shape_to_hom_matrix_rows. split; [reflexivity|].
  repeat constructor; rewrite length_map; exact Hlen.
Qed.

Lemma half_of_double_Z (n : nat) : (Z.of_nat (2 * n) / 2 = Z.of_nat n)%Z.
Proof.
  rewrite Nat2Z.inj_mul, Z.mul_comm. apply Z.div_mul. discriminate.
Qed.

(** X10.  The colour list has one entry for each pair of columns, and never
    fewer than the three guide-axis colours. *)
Theorem segment_colors_length (base_matrix : ndarray) :
  length (segment_colors base_matrix)
  = Nat.max (shape1 base_matrix / 2) 3.
Proof.
  unfold segment_colors. rewrite length_app, repeat_length. cbn [length].
  change 2%Z with (Z.of_nat 2). rewrite <- Nat2Z.inj_div.
  lia.
Qed.

(** X11.  For a wireframe of two-point line segments and a nonzero distance, the
    viewer draws one segment per edge and three more for the guide axes,
    and the colour list matches them: ['C0'] for every edge, then
    ['r', 'g', 'b']. *)
Theorem wireframe_segments_and_colors (p : params) (shape : wireframe) :
  d p <> 0 ->
  Forall (fun e => length e = 2%nat) shape ->
  exists segs,
    full_transform p (shape_to_hom_matrix shape) = Ok segs /\
    length segs = (length shape + 3)%nat /\
    segment_colors (shape_to_hom_matrix shape)
    = repeat "C0"%string (length shape) ++ ["r"; "g"; "b"]%string /\
    length (segment_colors (shape_to_hom_matrix shape)) = length segs.
Proof.
  intros Hd Hshape.
  pose proof (shape_to_hom_matrix_has_shape shape Hshape) as HS.
  destruct (full_transform_even p _ _ Hd HS) as [segs [Hsegs Hlen]].
  exists segs. split; [exact Hsegs|]. split; [exact Hlen|].
  assert (segment_colors (shape_to_hom_matrix shape)
          = repeat "C0"%string (length shape) ++ ["r"; "g"; "b"]%string) as Hc.
  { unfold segment_colors.
    rewrite (has_shape_shape1 _ _ _ HS), half_of_double_Z.
    replace (Z.to_nat (Z.of_nat (length shape + 3) - 3)) with (length shape)
      by lia.
    reflexivity. }
  split; [exact Hc|].
  rewrite Hc, length_app, repeat_length, Hlen. reflexivity.
Qed.

Lemma wireframe_segments_and_colors_witness :
  exists segs,
    full_transform global_params (shape_to_hom_matrix cube) = Ok segs /\
    length segs = (length cube + 3)%nat /\
    segment_colors (shape_to_hom_matrix cube)
    = repeat "C0"%string (length cube) ++ ["r"; "g"; "b"]%string /\
    length (segment_colors (shape_to_hom_matrix cube)) = length segs.
Proof.
  apply (wireframe_segments_and_colors global_params cube).
  - simpl. lra.
  - unfold cube. repeat constructor.
Defined.

(** ** Sliders *)

Lemma setitem_updates_d (pname : String.string) (val : R) (p : params) :
  In pname updates -> d (setitem pname val p) = d p.
Proof.
  unfold updates. simpl.
  intros [<-|[<-|[<-|[<-|[<-|[<-|[]]]]]]]; reflexivity.
Qed.

Lemma run_updates_d (events : list (String.string * R)) :
  Forall (fun e => In (fst e) updates) events ->
  forall p, d (run_updates events p) = d p.
Proof.
  induction 1 as [|e events He _ IH]; intros p; [reflexivity|].
  unfold run_updates in *. cbn [fold_left].
  now rewrite IH, setitem_updates_d.
Qed.

(** X12.  No slider is connected to the distance: after any run of slider
    events the distance is still 10, so the combined matrix is always
    defined and the division in [perspective] never fails. *)
Theorem sliders_keep_distance (events : list (String.string * R)) :
  Forall (fun e => In (fst e) updates) events ->
  d (run_updates events global_params) = 10 /\
  exists M, full_transform_matrix (run_updates events global_params) = Ok M.
Proof.
  intros Hev.
  assert (d (run_updates events global_params) = 10) as Hd
      by (rewrite (run_updates_d events Hev); reflexivity).
  split; [exact Hd|].
  eexists. apply full_transform_matrix_nonzero. rewrite Hd. lra.
Qed.

Lemma sliders_keep_distance_witness :
  d (run_updates [("rx"%string, 1); ("tz"%string, 5); ("rx"%string, 2)]
       global_params) = 10 /\
  exists M,
    full_transform_matrix
      (run_updates [("rx"%string, 1); ("tz"%string, 5); ("rx"%string, 2)]
         global_params) = Ok M.
Proof.
  apply (sliders_keep_distance
           [("rx"%string, 1); ("tz"%string, 5); ("rx"%string, 2)]).
  repeat constructor; simpl; tauto.
Defined.

(** ** The homogeneous coordinate never vanishes near the origin *)

(** Row 2 of translate . rotateX . rotateY . rotateZ: a unit vector and
    the z translation. *)
Lemma affine_row2 (p : params) :
  let a := sin (rx p) * sin (rz p) - cos (rx p) * sin (ry p) * cos (rz p) in
  let b := sin (rx p) * cos (rz p) + cos (rx p) * sin (ry p) * sin (rz p) in
  let c := cos (rx p) * cos (ry p) in
  row 2 (translate (tx p) (ty p) (tz p)
         @@ (hom_rotate_x (rx p)
             @@ (hom_rotate_y (ry p) @@ hom_rotate_z (rz p))))
  = [a; b; c; tz p]
  /\ a * a + b * b + c * c = 1.
Proof.
  intros a b c. split.
  - unfold a, b, c. unfold_arrays. array_eq ltac:(ring).
  - subst a b c.
    pose proof (cos2_sin2_prod (rx p)) as H1.
    pose proof (cos2_sin2_prod (ry p)) as H2.
    pose proof (cos2_sin2_prod (rz p)) as H3.
    generalize dependent (cos (rx p)). generalize dependent (sin (rx p)).
    generalize dependent (cos (ry p)). generalize dependent (sin (ry p)).
    generalize dependent (cos (rz p)). generalize dependent (sin (rz p)).
    intros s3 c3 H3 s2 c2 H2 s1 c1 H1.
    transitivity ((c3 * c3 + s3 * s3) * (s1 * s1 + c1 * c1 * (s2 * s2))
                  + c1 * c1 * (c2 * c2 + s2 * s2) - c1 * c1 * (s2 * s2)
                  + (c1 * c1 + s1 * s1) - (s1 * s1 + c1 * c1));
      [ring|].
    rewrite H3, H2, H1. ring.
Qed.

Lemma affine_row3 (p : params) :
  row 3 (translate (tx p) (ty p) (tz p)
         @@ (hom_rotate_x (rx p)
             @@ (hom_rotate_y (ry p) @@ hom_rotate_z (rz p))))
  = [0; 0; 0; 1].
Proof. unfold_arrays. array_eq ltac:(ring). Qed.


Lemma affine_shape (p : params) :
  has_shape 4 4 (translate (tx p) (ty p) (tz p)
                 @@ (hom_rotate_x (rx p)
                     @@ (hom_rotate_y (ry p) @@ hom_rotate_z (rz p)))).
Proof. apply mmul_shape; reflexivity. Qed.

(** The homogeneous coordinate of a transformed column: one minus the
    transformed z coordinate over the distance. *)
Lemma transformed_homogeneous (p : params) (S : ndarray) (n j : nat) :
  has_shape 4 n S -> (j < n)%nat -> entry 3 j S = 1 ->
  let a := sin (rx p) * sin (rz p) - cos (rx p) * sin (ry p) * cos (rz p) in
  let b := sin (rx p) * cos (rz p) + cos (rx p) * sin (ry p) * sin (rz p) in
  let c := cos (rx p) * cos (ry p) in
  entry 3 j
    ([[1; 0; 0; 0]; [0; 1; 0; 0]; [0; 0; 0; 0]; [0; 0; (-1) / d p; 1]]
     @@ (translate (tx p) (ty p) (tz p)
         @@ (hom_rotate_x (rx p)
             @@ (hom_rotate_y (ry p) @@ hom_rotate_z (rz p))))
     @@ S)
  = 1 - (a * entry 0 j S + b * entry 1 j S + c * entry 2 j S + tz p) / d p.
Proof.
  intros HS Hj H1 a b c.
  set (W := translate (tx p) (ty p) (tz p)
            @@ (hom_rotate_x (rx p)
                @@ (hom_rotate_y (ry p) @@ hom_rotate_z (rz p)))).
  pose proof (affine_shape p) as HW. fold W in HW.
  pose proof (has_shape_shape1 _ _ _ HS) as HS1.
  assert (has_shape 4 n (W @@ S)) as HWS
      by (apply mmul_shape; [exact (proj1 HW)|exact HS1]).
  rewrite mmul_assoc by (apply (has_shape_assoc_side _ _ _ HW)).
  rewrite entry_mmul
    by (first [simpl; lia | rewrite (has_shape_shape1 _ _ _ HWS); exact Hj]).
  rewrite (col_four_rows j n _ HWS).
  rewrite !(entry_mmul _ j W S)
    by (first [rewrite (proj1 HW); lia | rewrite HS1; exact Hj]).
  destruct (affine_row2 p) as [Hr2 _]. fold W in Hr2.
  pose proof (affine_row3 p) as Hr3. fold W in Hr3.
  rewrite Hr2, Hr3, (col_four_rows j n S HS), H1.
  fold a b c. unfold row. cbn [nth vdot]. unfold Rdiv. ring.
Qed.



Lemma nth_map_in_range {A : Type} (f : A -> R) (l : list A) (dflt : A) (j : nat) :
  (j < length l)%nat -> nth j (map f l) 0 = f (nth j l dflt).
Proof.
  intros Hj. rewrite (nth_indep _ 0 (f dflt)) by (rewrite length_map; exact Hj).
  apply map_nth.
Qed.









(** ** The closed form of the projection *)

Lemma affine_rows01 (p : params) :
  row 0 (translate (tx p) (ty p) (tz p)
         @@ (hom_rotate_x (rx p)
             @@ (hom_rotate_y (ry p) @@ hom_rotate_z (rz p))))
  = [cos (ry p) * cos (rz p); - (cos (ry p) * sin (rz p)); sin (ry p); tx p]
  /\
  row 1 (translate (tx p) (ty p) (tz p)
         @@ (hom_rotate_x (rx p)
             @@ (hom_rotate_y (ry p) @@ hom_rotate_z (rz p))))
  = [cos (rx p) * sin (rz p) + sin (rx p) * sin (ry p) * cos (rz p);
     cos (rx p) * cos (rz p) - sin (rx p) * sin (ry p) * sin (rz p);
     - (sin (rx p) * cos (ry p)); ty p].
Proof. split; unfold_arrays; array_eq ltac:(ring). Qed.

(** Column [j] of the transformed point matrix, for a column (x, y, z, 1)
    of the point matrix. *)
Lemma transformed_column (p : params) (S : ndarray) (n j : nat) :
  has_shape 4 n S -> (j < n)%nat -> entry 3 j S = 1 ->
  let T := [[1; 0; 0; 0]; [0; 1; 0; 0]; [0; 0; 0; 0]; [0; 0; (-1) / d p; 1]]
           @@ (translate (tx p) (ty p) (tz p)
               @@ (hom_rotate_x (rx p)
                   @@ (hom_rotate_y (ry p) @@ hom_rotate_z (rz p))))
           @@ S in
  let q := rotated p (entry 0 j S, entry 1 j S, entry 2 j S) in
  entry 0 j T = fst (fst q) + tx p /\
  entry 1 j T = snd (fst q) + ty p /\
  entry 3 j T = 1 - (snd q + tz p) / d p.
Proof.
  intros HS Hj H1 T q.
  split; [|split];
    [| | unfold q, rotated; cbn [snd];
         exact (transformed_homogeneous p S n j HS Hj H1)].
  all: unfold T.
  all: set (W := translate (tx p) (ty p) (tz p)
                 @@ (hom_rotate_x (rx p)
                     @@ (hom_rotate_y (ry p) @@ hom_rotate_z (rz p)))).
  all: pose proof (affine_shape p) as HW; fold W in HW.
  all: pose proof (has_shape_shape1 _ _ _ HS) as HS1.
  all: assert (has_shape 4 n (W @@ S)) as HWS
      by (apply mmul_shape; [exact (proj1 HW)|exact HS1]).
  all: rewrite mmul_assoc by (apply (has_shape_assoc_side _ _ _ HW)).
  all: rewrite entry_mmul
      by (first [simpl; lia | rewrite (has_shape_shape1 _ _ _ HWS); exact Hj]).
  all: rewrite (col_four_rows j n _ HWS).
  all: rewrite !(entry_mmul _ j W S)
      by (first [rewrite (proj1 HW); lia | rewrite HS1; exact Hj]).
  all: destruct (affine_rows01 p) as [Hr0 Hr1]; fold W in Hr0, Hr1.
  all: destruct (affine_row2 p) as [Hr2 _]; fold W in Hr2.
  all: pose proof (affine_row3 p) as Hr3; fold W in Hr3.
  all: rewrite Hr0, Hr1, Hr2, Hr3, (col_four_rows j n S HS), H1.
  all: unfold q, rotated, row; cbn [nth vdot fst snd]; ring.
Qed.

(** Consecutive items of a flattened list of two-element lists are the
    two elements of each list. *)
Lemma pairs_of_concat {A B : Type} (f : A -> B) (dflt : A)
      (edges : list (list A)) :
  Forall (fun e => length e = 2%nat) edges ->
  map (fun k => (f (nth (2 * k) (concat edges) dflt),
                 f (nth (2 * k + 1) (concat edges) dflt)))
      (seq 0 (length edges))
  = map (fun e => (f (nth 0 e dflt), f (nth 1 e dflt))) edges.
Proof.
  induction 1 as [|e edges He _ IH]; [reflexivity|].
  destruct e as [|a [|b [|c e]]]; try discriminate.
  cbn [length concat app map].
  change (seq 0 (S (length edges))) with (0%nat :: seq 1 (length edges)).
  rewrite <- seq_shift, map_cons, map_map. f_equal.
  rewrite <- IH. apply map_ext. intros k.
  replace (2 * S k)%nat with (S (S (2 * k))) by lia.
  replace (S (S (2 * k)) + 1)%nat with (S (S (2 * k + 1))) by lia.
  reflexivity.
Qed.

Lemma guide_axes_pairs : Forall (fun e : line_segment => length e = 2%nat) guide_axes.
Proof. unfold guide_axes. repeat constructor. Qed.

(** X15.  End to end: for a nonzero distance and a wireframe of two-point line
    segments, the viewer turns every edge, in order and with the guide
    axes last, into the segment joining the camera images of its two
    endpoints. *)
Theorem full_transform_closed_form (p : params) (shape : wireframe) :
  d p <> 0 ->
  Forall (fun e => length e = 2%nat) shape ->
  full_transform p (shape_to_hom_matrix shape)
  = Ok (map (fun e => (camera_point p (nth 0 e (0, 0, 0)),
                       camera_point p (nth 1 e (0, 0, 0))))
            (shape ++ guide_axes)).
Proof.
  intros Hd Hshape.
  pose proof (shape_to_hom_matrix_has_shape shape Hshape) as HS.
  assert (Forall (fun e : line_segment => length e = 2%nat)
                 (shape ++ guide_axes)) as Hall
      by (apply Forall_app; split; [exact Hshape|exact guide_axes_pairs]).
  set (pts := concat (shape ++ guide_axes)).
  assert (length pts = (2 * (length shape + 3))%nat) as Hlen.
  { unfold pts. rewrite (length_concat_pairs _ Hall), length_app.
    reflexivity. }
  unfold full_transform.
  rewrite full_transform_matrix_nonzero by exact Hd.
  cbn [bind]. unfold matmul.
  rewrite full_transform_matrix_shape1. unfold shape0.
  rewrite (proj1 HS). cbn [Nat.eqb bind].
  rewrite (matrix_to_projection_total _ (length shape + 3))
    by (apply mmul_shape; [reflexivity|exact (has_shape_shape1 _ _ _ HS)]).
  f_equal.
  transitivity
    (map (fun k => (camera_point p (nth (2 * k) pts (0, 0, 0)),
                    camera_point p (nth (2 * k + 1) pts (0, 0, 0))))
         (seq 0 (length (shape ++ guide_axes))));
    [|exact (pairs_of_concat (camera_point p) (0, 0, 0) _ Hall)].
  rewrite length_app. cbn [guide_axes length].
  assert (forall j, (j < 2 * (length shape + 3))%nat ->
            divided_column
              ([[1; 0; 0; 0]; [0; 1; 0; 0]; [0; 0; 0; 0];
                [0; 0; (-1) / d p; 1]]
               @@ (translate (tx p) (ty p) (tz p)
                   @@ (hom_rotate_x (rx p)
                       @@ (hom_rotate_y (ry p) @@ hom_rotate_z (rz p))))
               @@ shape_to_hom_matrix shape) j
            = camera_point p (nth j pts (0, 0, 0))) as Hcol.
  { intros j Hj.
    assert (entry 0 j (shape_to_hom_matrix shape)
            = fst (fst (nth j pts (0, 0, 0))) /\
            entry 1 j (shape_to_hom_matrix shape)
            = snd (fst (nth j pts (0, 0, 0))) /\
            entry 2 j (shape_to_hom_matrix shape)
            = snd (nth j pts (0, 0, 0)) /\
            entry 3 j (shape_to_hom_matrix shape) = 1) as [E0 [E1 [E2 E3]]].
    { rewrite shape_to_hom_matrix_rows. fold pts. unfold entry, row.
      cbn [nth].
      rewrite !(nth_map_in_range _ pts (0, 0, 0)) by (rewrite Hlen; exact Hj).
      repeat split. }
    destruct (transformed_column p _ _ j HS Hj E3) as [T0 [T1 T3]].
    unfold divided_column. rewrite T0, T1, T3, E0, E1, E2.
    unfold camera_point.
    destruct (nth j pts (0, 0, 0)) as [[x y] z]. cbn [fst snd].
    destruct (rotated p (x, y, z)) as [[x' y'] z']. reflexivity. }
  apply map_ext_in. intros k Hk. apply in_seq in Hk.
  rewrite !Hcol by lia. reflexivity.
Qed.

Lemma full_transform_closed_form_witness :
  full_transform global_params (shape_to_hom_matrix cube)
  = Ok (map (fun e => (camera_point global_params (nth 0 e (0, 0, 0)),
                       camera_point global_params (nth 1 e (0, 0, 0))))
            (cube ++ guide_axes)).
Proof.
  apply (full_transform_closed_form global_params cube).
  - simpl. lra.
  - unfold cube. repeat constructor.
Defined.
